(** * sentry.web.frontend.base: access grants, scope resolution, dispatch

    A shallow embedding of [src/sentry/web/frontend/base.py].

    - Python objects of [sentry.models] are records, one module per class,
      so that [Organization.slug o] reads like [o.slug].
    - The ORM managers ([Organization.objects.get_from_cache], ...) and the
      [OrganizationMemberType] constants live in [sentry.models], which is
      outside this file: they are the fields of one record [Models] that
      every function touching the store takes as its first argument.  A
      [DoesNotExist] raised by a manager is the [None] of its result.
    - The request's mutable parts (the session dict, the message queue) are
      threaded through a small monad that also records, in order, every
      store query, log line and session mutation the code performs; a
      computation that ends in an uncaught Python exception yields [None]. *)

From Stdlib Require Import ZArith.
From stdpp Require Import base option strings list gmap.

Local Open Scope string_scope.
Local Open Scope list_scope.
Local Open Scope Z_scope.

(** ** Data model *)

(** Modelled from the spec: the [OrganizationStatus] enumeration of
    [sentry.models] ("VISIBLE | PENDING_DELETION | DELETION_IN_PROGRESS"),
    which is imported by the source but not defined in it. *)
Inductive OrganizationStatus := VISIBLE | PENDING_DELETION | DELETION_IN_PROGRESS.

#[global] Instance OrganizationStatus_eq_dec : EqDecision OrganizationStatus.
Proof. solve_decision. Defined.

Module User.
Record t := mk {
  id : Z;
  is_superuser : bool;
  is_authenticated : bool;
}.
End User.

Module Organization.
Record t := mk {
  id : Z;
  slug : string;
  status : OrganizationStatus;
}.
End Organization.

Module Team.
Record t := mk {
  id : Z;
  slug : string;
  organization_id : Z;
}.

(** Django compares model instances by primary key; this is the [==]
    behind [team in self._teams]. *)
Definition eqb (a b : t) : bool := bool_decide (id a = id b).
End Team.

Module Project.
Record t := mk {
  id : Z;
  slug : string;
  organization_id : Z;
  team : Team.t;
}.
End Project.

Module OrganizationMember.
Record t := mk {
  user_id : Z;
  organization_id : Z;
  type : Z;
  has_global_access : bool;
  teams : list Team.t;
}.
End OrganizationMember.

Module AuthIdentity.
Record t := mk {
  is_valid : OrganizationMember.t → bool;
}.
End AuthIdentity.

(** The collaborators of [sentry.models]: the role-tier constants of
    [OrganizationMemberType] and the manager calls the source makes. *)
Record Models := {
  OWNER : Z;
  ADMIN : Z;
  Organization_get_from_cache : string → option Organization.t;
  Organization_get_for_user : User.t → option Z → list Organization.t;
  OrganizationMember_get : User.t → Organization.t → option OrganizationMember.t;
  AuthIdentity_get : Z → option AuthIdentity.t;
  Team_get_from_cache : string → Organization.t → option Team.t;
  Team_has_access : Team.t → User.t → option Z → bool;
  Project_get_from_cache : string → Organization.t → option Project.t;
  Project_has_access : Project.t → User.t → option Z → bool;
}.

(** ** Effects *)

Inductive MessageLevel := ERROR.

Inductive Event :=
| QOrganizationCache (slug : string)
| QOrganizationsForUser (user : User.t) (access : option Z)
| QOrganizationMember (user : User.t) (organization : Organization.t)
| QAuthIdentity (organization_id : Z)
| QTeamCache (slug : string) (organization : Organization.t)
| QTeamAccess (team : Team.t) (user : User.t) (access : option Z)
| QProjectCache (slug : string) (organization : Organization.t)
| QProjectAccess (project : Project.t) (user : User.t) (access : option Z)
| LogInfo (msg : string) (args : list string)
| SessionSet (key value : string)
| SessionDel (key : string)
| MessageAdd (level : MessageLevel) (text : string).

(** The mutable part of a request. *)
Record State := mkState {
  session : gmap string string;
  messages : list (MessageLevel * string);
}.

Definition M (A : Type) : Type := State → option (A * State * list Event).

(** The monad structure, as instances of stdpp's [MRet] and [MBind], which
    bring the notations [x ← m; k] and [m;; k]. *)
#[global] Instance M_ret : MRet M := λ A a st, Some (a, st, []).

#[global] Instance M_bind : MBind M := λ A B k m st,
  match m st with
  | None => None
  | Some (a, st1, ev1) =>
      match k a st1 with
      | None => None
      | Some (b, st2, ev2) => Some (b, st2, ev1 ++ ev2)
      end
  end.

Definition ret {A} (a : A) : M A := mret a.

Definition emit (e : Event) : M unit := λ st, Some (tt, st, [e]).

(** An uncaught exception. *)
Definition raise {A} : M A := λ _, None.

(** Reading an attribute of [x]: an [AttributeError] when [x] is [None]. *)
Definition not_none {A} (x : option A) : M A :=
  match x with
  | Some a => ret a
  | None => raise
  end.

(** [request.session.get(key)] *)
Definition session_get (key : string) : M (option string) :=
  λ st, Some (session st !! key, st, []).

(** [request.session[key] = value] *)
Definition session_set (key value : string) : M unit :=
  λ st, Some (tt, mkState (<[key := value]> (session st)) (messages st),
              [SessionSet key value]).

(** [del request.session[key]]: a [KeyError] when the key is absent. *)
Definition session_del (key : string) : M unit :=
  λ st,
    match session st !! key with
    | None => None
    | Some _ => Some (tt, mkState (delete key (session st)) (messages st),
                      [SessionDel key])
    end.

(** [messages.add_message(request, level, text)] *)
Definition add_message (level : MessageLevel) (text : string) : M unit :=
  λ st, Some (tt, mkState (session st) (messages st ++ [(level, text)]),
              [MessageAdd level text]).

Definition logging_info (msg : string) (args : list string) : M unit :=
  emit (LogInfo msg args).

(** Python truthiness of a string. *)
Definition truthy (s : string) : bool := negb (bool_decide (s = "")).

(** ** [NoAccess] and [Access] *)

Module NoAccess.
Definition is_global : bool := false.
Definition is_sso_valid : bool := false.
Definition has_access (type : Z) : bool := false.
Definition has_team_access (team : Team.t) : bool := false.
End NoAccess.

Module Access.
Record t := mk {
  _type : option Z;
  _is_global : bool;
  _is_sso_valid : bool;
  _teams : list Team.t;
}.

(** [__init__(self, type, is_global=False, is_sso_valid=False, teams=())] *)
Definition init (type : option Z) : t := mk type false false [].

Definition has_access (self : t) (type : Z) : bool :=
  match _type self with
  | None => false
  | Some ty => ty <=? type
  end.

Definition has_team_access (self : t) (team : Team.t) : bool :=
  match _type self with
  | None => false
  | Some _ =>
      if _is_global self then true
      else existsb (Team.eqb team) (_teams self)
  end.

Definition is_admin (db : Models) (self : t) : bool :=
  match _type self with
  | None => false
  | Some _ => has_access self (ADMIN db)
  end.

Definition is_global (self : t) : bool := _is_global self.

Definition is_owner (db : Models) (self : t) : bool :=
  match _type self with
  | None => false
  | Some _ => has_access self (OWNER db)
  end.

Definition is_sso_valid (self : t) : bool := _is_sso_valid self.

(** What [from_user] returns and [request.access] holds: a [NoAccess()]
    or an [Access] instance. *)
Inductive grant :=
| no_access
| access (a : t).

(** [Access.from_member] *)
Definition from_member (db : Models) (member : OrganizationMember.t) : M t :=
  let teams :=
    if OrganizationMember.has_global_access member then []
    else OrganizationMember.teams member in
  emit (QAuthIdentity (OrganizationMember.organization_id member));;
  let is_sso_valid :=
    match AuthIdentity_get db (OrganizationMember.organization_id member) with
    | None => true
    | Some auth_identity => AuthIdentity.is_valid auth_identity member
    end in
  ret (mk (Some (OrganizationMember.type member))
          (OrganizationMember.has_global_access member)
          is_sso_valid
          teams).

(** [Access.from_user] *)
Definition from_user (db : Models) (user : User.t)
    (organization : option Organization.t) : M grant :=
  if User.is_superuser user then
    ret (access (mk (Some (OWNER db)) true true []))
  else
    match organization with
    | None => ret no_access
    | Some org =>
        emit (QOrganizationMember user org);;
        match OrganizationMember_get db user org with
        | None => ret (access (init None))
        | Some om => a ← from_member db om; ret (access a)
        end
    end.
End Access.

Abbreviation AccessGrant := Access.grant.

(** Attribute and method lookup on [request.access], by the instance's class. *)
Definition is_global (g : AccessGrant) : bool :=
  match g with
  | Access.no_access => NoAccess.is_global
  | Access.access a => Access.is_global a
  end.

Definition is_sso_valid (g : AccessGrant) : bool :=
  match g with
  | Access.no_access => NoAccess.is_sso_valid
  | Access.access a => Access.is_sso_valid a
  end.

Definition has_access (g : AccessGrant) (type : Z) : bool :=
  match g with
  | Access.no_access => NoAccess.has_access type
  | Access.access a => Access.has_access a type
  end.

Definition has_team_access (g : AccessGrant) (team : Team.t) : bool :=
  match g with
  | Access.no_access => NoAccess.has_team_access team
  | Access.access a => Access.has_team_access a team
  end.

(** ** [OrganizationMixin] *)

(** A block that may execute [return v] before its end: [Return v] leaves
    the enclosing function with [v], [Continue x] goes on with [x]. *)
Inductive Flow (R A : Type) :=
| Return (v : R)
| Continue (x : A).
Arguments Return {R A} v.
Arguments Continue {R A} x.

Record Request := mkRequest {
  user : User.t;
  is_sudo : bool;
  get_full_path : string;
}.

Module OrganizationMixin.
(** The generator expression
    [(o for o in organizations if o.slug == organization_slug).next()];
    [StopIteration] is [None]. *)
Fixpoint next_with_slug (organizations : list Organization.t)
    (organization_slug : string) : option Organization.t :=
  match organizations with
  | [] => None
  | o :: rest =>
      if bool_decide (Organization.slug o = organization_slug) then Some o
      else next_with_slug rest organization_slug
  end.

Arguments next_with_slug : simpl never.

(** Lines 140-151: the direct lookup made for a superuser. *)
Definition superuser_lookup (db : Models) (request : Request)
    (organization_slug : option string)
    : M (Flow (option Organization.t) (option Organization.t)) :=
  match organization_slug with
  | Some slug =>
      if User.is_superuser (user request) then
        emit (QOrganizationCache slug);;
        match Organization_get_from_cache db slug with
        | Some active_organization =>
            if bool_decide (Organization.status active_organization ≠ VISIBLE) then
              logging_info "Active organization [%s] not found" [slug];;
              ret (Return None)
            else ret (Continue (Some active_organization))
        | None =>
            logging_info "Active organization [%s] not found" [slug];;
            ret (Return None)
        end
      else ret (Continue None)
  | None => ret (Continue None)
  end.

(** Lines 153-157.  When [active_organization] is already set the name
    [organizations] stays unbound; no later line reads it in that case. *)
Definition fetch_organizations (db : Models) (request : Request)
    (access : option Z) (active_organization : option Organization.t)
    : M (list Organization.t) :=
  match active_organization with
  | None =>
      emit (QOrganizationsForUser (user request) access);;
      ret (Organization_get_for_user db (user request) access)
  | Some _ => ret []
  end.

(** Lines 159-170: the search of the fetched organizations. *)
Definition search_organizations (organizations : list Organization.t)
    (is_implicit : bool) (organization_slug : option string)
    (active_organization : option Organization.t)
    : M (option Organization.t) :=
  match active_organization, organization_slug with
  | None, Some slug =>
      if truthy slug then
        match next_with_slug organizations slug with
        | Some o => ret (Some o)
        | None =>
            logging_info "Active organization [%s] not found in scope" [slug];;
            (if is_implicit then session_del "activeorg" else ret tt);;
            ret None
        end
      else ret active_organization
  | _, _ => ret active_organization
  end.

(** Lines 172-180: the default to the first organization. *)
Definition default_organization (organizations : list Organization.t)
    (is_implicit : bool) (active_organization : option Organization.t)
    : M (Flow (option Organization.t) (option Organization.t)) :=
  match active_organization with
  | None =>
      if negb is_implicit then ret (Return None)
      else
        match organizations with
        | o :: _ => ret (Continue (Some o))
        | [] =>
            logging_info "User is not a member of any organizations" [];;
            ret (Continue None)
        end
  | Some _ => ret (Continue active_organization)
  end.

(** Lines 182-183: the session keeps the last active organization. *)
Definition remember_organization (active_organization : option Organization.t)
    : M unit :=
  match active_organization with
  | Some o =>
      stored ← session_get "activeorg";
      if bool_decide (Some (Organization.slug o) ≠ stored)
      then session_set "activeorg" (Organization.slug o)
      else ret tt
  | None => ret tt
  end.

Definition get_active_organization (db : Models) (request : Request)
    (organization_slug : option string) (access : option Z)
    : M (option Organization.t) :=
  let is_implicit := bool_decide (organization_slug = None) in
  organization_slug ←
    (if is_implicit then session_get "activeorg" else ret organization_slug);
  looked_up ← superuser_lookup db request organization_slug;
  match looked_up with
  | Return v => ret v
  | Continue active_organization =>
      organizations ← fetch_organizations db request access active_organization;
      active_organization ←
        search_organizations organizations is_implicit organization_slug
                             active_organization;
      defaulted ← default_organization organizations is_implicit active_organization;
      match defaulted with
      | Return v => ret v
      | Continue active_organization =>
          remember_organization active_organization;;
          ret active_organization
      end
  end.

Definition get_active_team (db : Models) (request : Request)
    (organization : Organization.t) (team_slug : string) (access : option Z)
    : M (option Team.t) :=
  emit (QTeamCache team_slug organization);;
  match Team_get_from_cache db team_slug organization with
  | None => ret None
  | Some team =>
      if negb (User.is_superuser (user request)) then
        emit (QTeamAccess team (user request) access);;
        if negb (Team_has_access db team (user request) access) then ret None
        else ret (Some team)
      else ret (Some team)
  end.

Definition get_active_project (db : Models) (request : Request)
    (organization : Organization.t) (project_slug : string) (access : option Z)
    : M (option Project.t) :=
  emit (QProjectCache project_slug organization);;
  match Project_get_from_cache db project_slug organization with
  | None => ret None
  | Some project =>
      if negb (User.is_superuser (user request)) then
        emit (QProjectAccess project (user request) access);;
        if negb (Project_has_access db project (user request) access) then ret None
        else ret (Some project)
      else ret (Some project)
  end.
End OrganizationMixin.

(** ** Views *)

Definition ERR_MISSING_SSO_LINK : string :=
  "You need to link your account with the SSO provider to continue.".

(** [django.core.urlresolvers.reverse] and [sentry.web.helpers.get_login_url]
    are kept symbolic. *)
Inductive Url :=
| reverse (name : string) (args : list string)
| get_login_url.

(** The keyword arguments the URL pattern supplies; [None] is an absent key. *)
Record UrlKwargs := mkUrlKwargs {
  kw_organization_slug : option string;
  kw_team_slug : option string;
  kw_project_slug : option string;
}.

(** The keyword arguments [convert_args] adds; [None] is Python's [None]
    (for a view that does not set the key, the key is never read). *)
Record Scope := mkScope {
  organization : option Organization.t;
  team : option Team.t;
  project : option Project.t;
}.

Inductive Response :=
| HttpResponseRedirect (url : Url)
| redirect_to_sudo (path : string)
| handled (scope : Scope) (access : AccessGrant).

(** The class attributes a concrete view may override. *)
Record ViewAttrs := mkViewAttrs {
  auth_required : bool;
  sudo_required : bool;
  required_access : option Z;
  valid_sso_required : bool;
}.

Module BaseView.
Definition get_access : M AccessGrant := ret Access.no_access.

Definition convert_args : M Scope := ret (mkScope None None None).

Definition is_auth_required (self : ViewAttrs) (request : Request) : bool :=
  auth_required self && negb (User.is_authenticated (user request)).

Definition redirect (url : Url) : Response := HttpResponseRedirect url.

Definition handle_auth_required (request : Request) (kwargs : UrlKwargs)
    : M Response :=
  session_set "_next" (get_full_path request);;
  let redirect_to :=
    match kw_organization_slug kwargs with
    | Some organization_slug => reverse "sentry-auth-organization" [organization_slug]
    | None => get_login_url
    end in
  ret (redirect redirect_to).

Definition is_sudo_required (self : ViewAttrs) (request : Request) : bool :=
  sudo_required self && negb (is_sudo request).

Definition handle_sudo_required (request : Request) : M Response :=
  ret (redirect_to_sudo (get_full_path request)).

Definition has_permission : bool := true.

Definition get_no_permission_url : Url := reverse "sentry" [].

Definition handle_permission_required : M Response :=
  let redirect_uri := get_no_permission_url in
  ret (redirect redirect_uri).
End BaseView.

Module OrganizationView.
Definition get_access (db : Models) (request : Request)
    (organization : option Organization.t) : M AccessGrant :=
  Access.from_user db (user request) organization.

Definition has_permission (self : ViewAttrs) (access : AccessGrant)
    (organization : option Organization.t) : bool :=
  match organization with
  | None => false
  | Some _ =>
      if valid_sso_required self && negb (is_sso_valid access) then false
      else true
  end.

(** [needs_link], as Python's truth value of the [and] chain. *)
Definition needs_link (self : ViewAttrs) (request : Request)
    (access : AccessGrant) (organization : option Organization.t) : bool :=
  match organization with
  | None => false
  | Some _ =>
      User.is_authenticated (user request)
      && valid_sso_required self
      && negb (is_sso_valid access)
  end.

Definition handle_permission_required (self : ViewAttrs) (request : Request)
    (access : AccessGrant) (organization : option Organization.t)
    : M Response :=
  if needs_link self request access organization then
    add_message ERROR ERR_MISSING_SSO_LINK;;
    org ← not_none organization;
    let redirect_uri :=
      reverse "sentry-auth-link-identity" [Organization.slug org] in
    ret (BaseView.redirect redirect_uri)
  else
    let redirect_uri := BaseView.get_no_permission_url in
    ret (BaseView.redirect redirect_uri).

(** [organization_slug=None] is the default of the signature. *)
Definition convert_args (db : Models) (self : ViewAttrs) (request : Request)
    (organization_slug : option string) : M Scope :=
  active_organization ←
    OrganizationMixin.get_active_organization db request organization_slug
      (required_access self);
  ret (mkScope active_organization None None).
End OrganizationView.

Module TeamView.
Definition has_permission (self : ViewAttrs) (access : AccessGrant)
    (organization : option Organization.t) (team : option Team.t) : bool :=
  let rv := OrganizationView.has_permission self access organization in
  if negb rv then rv
  else bool_decide (team ≠ None).

Definition convert_args (db : Models) (self : ViewAttrs) (request : Request)
    (organization_slug : option string) (team_slug : string) : M Scope :=
  active_organization ←
    OrganizationMixin.get_active_organization db request organization_slug None;
  active_team ←
    match active_organization with
    | Some org =>
        OrganizationMixin.get_active_team db request org team_slug
          (required_access self)
    | None => ret None
    end;
  ret (mkScope active_organization active_team None).
End TeamView.

Module ProjectView.
Definition has_permission (self : ViewAttrs) (access : AccessGrant)
    (organization : option Organization.t) (team : option Team.t)
    (project : option Project.t) : bool :=
  let rv := TeamView.has_permission self access organization team in
  if negb rv then rv
  else bool_decide (project ≠ None).

Definition convert_args (db : Models) (self : ViewAttrs) (request : Request)
    (organization_slug : option string) (project_slug : string) : M Scope :=
  active_organization ←
    OrganizationMixin.get_active_organization db request organization_slug None;
  active_project ←
    match active_organization with
    | Some org =>
        OrganizationMixin.get_active_project db request org project_slug
          (required_access self)
    | None => ret None
    end;
  let active_team :=
    match active_project with
    | Some p => Some (Project.team p)
    | None => None
    end in
  ret (mkScope active_organization active_team active_project).
End ProjectView.

(** ** [BaseView.dispatch], with the methods resolved by the view's class *)

Inductive ViewClass := IsBaseView | IsOrganizationView | IsTeamView | IsProjectView.

(** A required positional parameter that the URL pattern does not supply
    is a [TypeError]. *)
Definition required {A} (kwarg : option A) : M A :=
  match kwarg with
  | Some a => ret a
  | None => raise
  end.

Definition convert_args (db : Models) (cls : ViewClass) (self : ViewAttrs)
    (request : Request) (kwargs : UrlKwargs) : M Scope :=
  match cls with
  | IsBaseView => BaseView.convert_args
  | IsOrganizationView =>
      OrganizationView.convert_args db self request (kw_organization_slug kwargs)
  | IsTeamView =>
      organization_slug ← required (kw_organization_slug kwargs);
      team_slug ← required (kw_team_slug kwargs);
      TeamView.convert_args db self request (Some organization_slug) team_slug
  | IsProjectView =>
      organization_slug ← required (kw_organization_slug kwargs);
      project_slug ← required (kw_project_slug kwargs);
      ProjectView.convert_args db self request (Some organization_slug) project_slug
  end.

Definition get_access (db : Models) (cls : ViewClass) (request : Request)
    (scope : Scope) : M AccessGrant :=
  match cls with
  | IsBaseView => BaseView.get_access
  | _ => OrganizationView.get_access db request (organization scope)
  end.

Definition has_permission (cls : ViewClass) (self : ViewAttrs)
    (access : AccessGrant) (scope : Scope) : bool :=
  match cls with
  | IsBaseView => BaseView.has_permission
  | IsOrganizationView =>
      OrganizationView.has_permission self access (organization scope)
  | IsTeamView =>
      TeamView.has_permission self access (organization scope) (team scope)
  | IsProjectView =>
      ProjectView.has_permission self access (organization scope) (team scope)
        (project scope)
  end.

Definition handle_permission_required (cls : ViewClass) (self : ViewAttrs)
    (request : Request) (access : AccessGrant) (scope : Scope) : M Response :=
  match cls with
  | IsBaseView => BaseView.handle_permission_required
  | _ =>
      OrganizationView.handle_permission_required self request access
        (organization scope)
  end.

(** [dispatch] up to and including the permission stage.  What the source
    does after a granted check (lines 240-243: [get_context_data], with its
    query for the team list, and the HTTP-method handler of the concrete
    view) is not modelled and stands as the response [handled]; neither is
    Django's [csrf_protect] wrapper, which runs before the first stage.
    The state and the events of a [handled] result are therefore those of
    the stages up to the permission check. *)
Definition dispatch (db : Models) (cls : ViewClass) (self : ViewAttrs)
    (request : Request) (kwargs : UrlKwargs) : M Response :=
  if BaseView.is_auth_required self request then
    BaseView.handle_auth_required request kwargs
  else if BaseView.is_sudo_required self request then
    BaseView.handle_sudo_required request
  else
    scope ← convert_args db cls self request kwargs;
    access ← get_access db cls request scope;
    if negb (has_permission cls self access scope) then
      handle_permission_required cls self request access scope
    else ret (handled scope access).

(** ** Observations on the event trace *)

Definition is_session_mutation (e : Event) : bool :=
  match e with
  | SessionSet _ _ | SessionDel _ => true
  | _ => false
  end.

(** A lookup or an access check made to resolve a team on its own. *)
Definition is_team_resolution (e : Event) : bool :=
  match e with
  | QTeamCache _ _ | QTeamAccess _ _ _ => true
  | _ => false
  end.

(** The log line of a search that finds no organization with the slug. *)
Abbreviation not_in_scope s :=
  (LogInfo "Active organization [%s] not found in scope" [s]).

(** The events [get_active_organization] can produce for [request] when
    called with [access]. *)
Definition organization_resolution_event (request : Request)
    (access : option Z) (e : Event) : Prop :=
  match e with
  | QOrganizationCache _ | LogInfo _ _ => True
  | QOrganizationsForUser u a => u = user request ∧ a = access
  | SessionSet key _ | SessionDel key => key = "activeorg"
  | _ => False
  end.

(** A query sent to the store. *)
Definition is_store_query (e : Event) : bool :=
  match e with
  | QOrganizationCache _ | QOrganizationsForUser _ _
  | QOrganizationMember _ _ | QAuthIdentity _
  | QTeamCache _ _ | QTeamAccess _ _ _
  | QProjectCache _ _ | QProjectAccess _ _ _ => true
  | _ => false
  end.

(** The slug the resolver works with: the explicit one, else the stored one. *)
Definition effective_slug (st : State) (organization_slug : option string)
    : option string :=
  match organization_slug with
  | Some s => Some s
  | None => session st !! "activeorg"
  end.

(** ** [BaseView.respond] *)

(** [sentry.web.helpers.render_to_response] is kept symbolic. *)
Inductive Rendered (V : Type) :=
| render_to_response (template : string) (context : gmap string V)
    (request : Request) (status : Z).
Arguments render_to_response {V} template context request status.

Definition rendered_context {V} (r : Rendered V) : gmap string V :=
  match r with render_to_response _ context _ _ => context end.

(** [respond(self, template, context=None, status=200)].  The instance
    attributes [default_context] and [request] are arguments; the dict that
    [default_context] names is updated in place, so the dict it holds
    afterwards is returned beside the response. *)
Definition respond {V} (self_default_context : gmap string V)
    (self_request : Request) (template : string)
    (context : option (gmap string V)) (status : Z)
    : Rendered V * gmap string V :=
  let default_context :=
    match context with
    | Some c =>
        if bool_decide (c ≠ ∅) then c ∪ self_default_context
        else self_default_context
    | None => self_default_context
    end in
  (render_to_response template default_context self_request status,
   default_context).

(** ** Concrete worlds used by the examples *)

Module Examples.
Definition acme : Organization.t := Organization.mk 1 "acme" VISIBLE.
Definition root : User.t := User.mk 1 true true.
Definition alice : User.t := User.mk 2 false true.

Definition no_session : State := mkState ∅ [].

Definition as_root : Request := mkRequest root false "/acme/".
Definition as_alice : Request := mkRequest alice false "/acme/".

(** A store with the given organization tables and nothing else. *)
Definition store (cache : string → option Organization.t)
    (for_user : list Organization.t) : Models :=
  {| OWNER := 0; ADMIN := 25;
     Organization_get_from_cache := cache;
     Organization_get_for_user := λ _ _, for_user;
     OrganizationMember_get := λ _ _, None;
     AuthIdentity_get := λ _, None;
     Team_get_from_cache := λ _ _, None;
     Team_has_access := λ _ _ _, false;
     Project_get_from_cache := λ _ _, None;
     Project_has_access := λ _ _ _, false |}.

(** The slug cache misses [acme] although the user can access it. *)
Definition cache_miss : Models := store (λ _, None) [acme].

Definition member_of_acme : OrganizationMember.t :=
  OrganizationMember.mk 2 1 50 false [].

(** [acme] enforces SSO and its AuthIdentity rejects every member. *)
Definition sso_unlinked : Models :=
  {| OWNER := 0; ADMIN := 25;
     Organization_get_from_cache := λ _, Some acme;
     Organization_get_for_user := λ _ _, [acme];
     OrganizationMember_get := λ _ _, Some member_of_acme;
     AuthIdentity_get := λ _, Some (AuthIdentity.mk (λ _, false));
     Team_get_from_cache := λ _ _, None;
     Team_has_access := λ _ _ _, false;
     Project_get_from_cache := λ _ _, None;
     Project_has_access := λ _ _ _, false |}.

Definition organization_endpoint : ViewAttrs := mkViewAttrs true false None true.

Definition acme_url : UrlKwargs := mkUrlKwargs (Some "acme") None None.

Definition remembered : State := mkState {["activeorg" := "acme"]} [].

Definition ops : Team.t := Team.mk 7 "ops" 1.
Definition web : Project.t := Project.mk 3 "web" 1 ops.

(** [acme] has the project [web], owned by the team [ops]; the project
    grants access to every user. *)
Definition with_project : Models :=
  {| OWNER := 0; ADMIN := 25;
     Organization_get_from_cache := λ _, Some acme;
     Organization_get_for_user := λ _ _, [acme];
     OrganizationMember_get := λ _ _, Some member_of_acme;
     AuthIdentity_get := λ _, None;
     Team_get_from_cache := λ _ _, None;
     Team_has_access := λ _ _ _, false;
     Project_get_from_cache :=
       λ slug _, if bool_decide (slug = "web") then Some web else None;
     Project_has_access := λ _ _ _, true |}.
End Examples.

(** * Properties *)

Import OrganizationMixin.

(* stdpp's solvers clear hypotheses that are already gone *)
#[local] Set Warnings "-clear-no-such-hyp".

(** ** The search by slug *)

Lemma next_with_slug_Some organizations organization_slug o :
  next_with_slug organizations organization_slug = Some o →
  o ∈ organizations ∧ Organization.slug o = organization_slug.
Proof.
  induction organizations as [|o' rest IH]; [done|].
  unfold next_with_slug; fold next_with_slug.
  case_bool_decide as Hslug.
  - intros [= ->]. split; [left | done].
  - intros [Hin ?]%IH. split; [by right | done].
Qed.

Lemma next_with_slug_None organizations organization_slug :
  next_with_slug organizations organization_slug = None →
  ∀ o, o ∈ organizations → Organization.slug o ≠ organization_slug.
Proof.
  induction organizations as [|o' rest IH]; intros Hnone o Hin.
  - by apply elem_of_nil in Hin.
  - revert Hnone. unfold next_with_slug; fold next_with_slug.
    case_bool_decide as Hslug; [done|]. intros Hnone.
    apply elem_of_cons in Hin as [->|Hin]; [done | by apply IH].
Qed.

Lemma next_with_slug_head o rest :
  next_with_slug (o :: rest) (Organization.slug o) = Some o.
Proof. unfold next_with_slug. by rewrite bool_decide_eq_true_2. Qed.

(** ** Running the resolver by cases *)

Ltac run_py :=
  unfold get_active_organization, superuser_lookup, fetch_organizations,
    search_organizations, default_organization, remember_organization,
    logging_info, session_get, session_set, session_del, add_message,
    emit, ret, raise, not_none, mbind, M_bind, mret, M_ret;
  cbn.

(** Decide the value of [t] in the goal: from a hypothesis that fixes it,
    else by cases. *)
Ltac branch_on t :=
  first [ match goal with H : t = _ |- _ => rewrite H end
        | destruct t eqn:? ].

Ltac branch_on_decide P D :=
  first [ match goal with H : P |- _ => rewrite (@bool_decide_eq_true_2 P D H) end
        | match goal with H : ¬ P |- _ => rewrite (@bool_decide_eq_false_2 P D H) end
        | destruct (@bool_decide_reflect P D) ].

(** One branching point of the resolver, in the order the code meets them. *)
Ltac resolver_branch :=
  match goal with
  | |- context [delete ?k ?m !! ?k] => rewrite (lookup_delete_eq m k)
  | |- context [<[?k:=?v]> ?m !! ?k] => rewrite (lookup_insert_eq m k v)
  | |- context [session ?st !! "activeorg"] =>
      branch_on (session st !! "activeorg")
  | |- context [User.is_superuser ?u] => branch_on (User.is_superuser u)
  | |- context [Organization_get_from_cache ?db ?s] =>
      branch_on (Organization_get_from_cache db s)
  | |- context [@bool_decide (Organization.status ?o ≠ VISIBLE) ?D] =>
      branch_on_decide (Organization.status o ≠ VISIBLE) D
  | |- context [Organization_get_for_user ?db ?u ?a] =>
      branch_on (Organization_get_for_user db u a)
  | |- context [truthy ?s] => branch_on (truthy s)
  | |- context [next_with_slug (?o :: ?l) (Organization.slug ?o)] =>
      rewrite (next_with_slug_head o l)
  | |- context [next_with_slug ?l ?s] => branch_on (next_with_slug l s)
  | |- context [@bool_decide ?P ?D] => branch_on_decide P D
  end; cbn.

Ltac resolver_cases := run_py; repeat resolver_branch.

(** What the search found or missed, spelled out on the slugs. *)
Ltac search_facts :=
  repeat match goal with
  | H : next_with_slug ?l ?s = Some ?o |- _ =>
      lazymatch goal with
      | _ : Organization.slug o = s |- _ => fail
      | _ => destruct (next_with_slug_Some _ _ _ H) as [? ?]
      end
  | H : next_with_slug (?o :: ?l) ?s = None |- _ =>
      lazymatch goal with
      | _ : Organization.slug o ≠ s |- _ => fail
      | _ => assert (Organization.slug o ≠ s)
               by (apply (next_with_slug_None _ _ H); left)
      end
  | H : ¬ (_ ≠ _) |- _ => apply dec_stable in H
  end.

(** The resolver never raises, and its events are its own. *)
Lemma get_active_organization_footprint db request organization_slug access st :
  ∃ res st' ev,
    get_active_organization db request organization_slug access st
      = Some (res, st', ev) ∧
    (∀ e, e ∈ ev → organization_resolution_event request access e) ∧
    (User.is_superuser (user request) = false →
     QOrganizationsForUser (user request) access ∈ ev) ∧
    messages st' = messages st.
Proof.
  destruct organization_slug as [slug|]; resolver_cases.
  all: eexists _, _, _; split; [reflexivity|].
  all: rewrite ?app_nil_r; repeat split; try done.
  all: try (intros e He; set_unfold; unfold organization_resolution_event;
            naive_solver).
  all: try (intros _; set_unfold; naive_solver).
Qed.

(** ** Running the views' [convert_args] *)

Ltac run_view :=
  unfold ProjectView.convert_args, TeamView.convert_args,
    OrganizationView.convert_args, get_active_project, get_active_team,
    emit, ret, mbind, M_bind, mret, M_ret.

(** What a team view builds once the organization is resolved. *)
Lemma team_convert_args_run db self request organization_slug team_slug st
    res st1 ev0 :
  get_active_organization db request organization_slug None st
    = Some (res, st1, ev0) →
  ∃ ev1,
    TeamView.convert_args db self request organization_slug team_slug st
    = Some (mkScope res
              match res with
              | Some org =>
                  match Team_get_from_cache db team_slug org with
                  | Some t =>
                      if User.is_superuser (user request)
                         || Team_has_access db t (user request)
                              (required_access self)
                      then Some t else None
                  | None => None
                  end
              | None => None
              end
              None, st1, ev0 ++ ev1) ∧
    (res = None → ev1 = []) ∧
    (User.is_superuser (user request) = true →
     ∀ t u a, QTeamAccess t u a ∉ ev1) ∧
    (∀ e, e ∈ ev1 → is_session_mutation e = false).
Proof.
  intros Hrun. run_view. rewrite Hrun.
  destruct res as [org|]; cbn;
    [destruct (Team_get_from_cache db team_slug org) as [t|];
     [destruct (User.is_superuser (user request));
      [|destruct (Team_has_access db t (user request) (required_access self))]|]|].
  all: cbn; eexists; split; [reflexivity|].
  all: repeat split; try done.
  all: intros; set_unfold; naive_solver.
Qed.

(** What a project view builds once the organization is resolved. *)
Lemma project_convert_args_run db self request organization_slug project_slug
    st res st1 ev0 :
  get_active_organization db request organization_slug None st
    = Some (res, st1, ev0) →
  let resolved :=
    match res with
    | Some org =>
        match Project_get_from_cache db project_slug org with
        | Some p =>
            if User.is_superuser (user request)
               || Project_has_access db p (user request) (required_access self)
            then Some p else None
        | None => None
        end
    | None => None
    end in
  ∃ ev1,
    ProjectView.convert_args db self request organization_slug project_slug st
    = Some (mkScope res (Project.team <$> resolved) resolved, st1, ev0 ++ ev1) ∧
    (res = None → ev1 = []) ∧
    (User.is_superuser (user request) = true →
     ∀ p u a, QProjectAccess p u a ∉ ev1) ∧
    (∀ e, e ∈ ev1 → is_session_mutation e = false).
Proof.
  intros Hrun resolved. subst resolved. run_view. rewrite Hrun.
  destruct res as [org|]; cbn;
    [destruct (Project_get_from_cache db project_slug org) as [p|];
     [destruct (User.is_superuser (user request));
      [|destruct (Project_has_access db p (user request) (required_access self))]|]|].
  all: cbn; eexists; split; [reflexivity|].
  all: repeat split; try done.
  all: intros; set_unfold; naive_solver.
Qed.

(** ** C1: a failed direct lookup for a superuser *)

(** C1, as stated, fails: for the superuser [root] and the explicit slug
    ["acme"] that the cache does not find, [get_active_organization] returns
    [None] from the lookup branch; the accessible organizations, which
    contain [acme], are never fetched. *)
Lemma superuser_lookup_failure_falls_through_cx :
  get_active_organization Examples.cache_miss Examples.as_root (Some "acme")
      None Examples.no_session
    = Some (None, Examples.no_session,
            [QOrganizationCache "acme";
             LogInfo "Active organization [%s] not found" ["acme"]])
  ∧ ¬ (∀ db request organization_slug access st s,
         User.is_superuser (user request) = true →
         (organization_slug = Some s
          ∨ organization_slug = None ∧ session st !! "activeorg" = Some s) →
         (∀ o, Organization_get_from_cache db s = Some o →
               Organization.status o ≠ VISIBLE) →
         ∃ res st' ev,
           get_active_organization db request organization_slug access st
             = Some (res, st', ev) ∧
           QOrganizationsForUser (user request) access ∈ ev).
Proof.
  split; [reflexivity|].
  intros Hclaim.
  destruct (Hclaim Examples.cache_miss Examples.as_root (Some "acme") None
              Examples.no_session "acme")
    as (res & st' & ev & Hrun & Hfetch); [done | by left | done |].
  vm_compute in Hrun. injection Hrun as <- <- <-.
  set_unfold. naive_solver.
Qed.

(** C1, amended: for a superuser and a slug, explicit or read from the
    session, that the cache does not find or finds with a status other than
    VISIBLE, [get_active_organization] returns [None] at once: the
    accessible organizations are not fetched and the session is untouched. *)
Theorem superuser_lookup_failure_returns_none
    db request organization_slug access st s :
  User.is_superuser (user request) = true →
  (organization_slug = Some s
   ∨ organization_slug = None ∧ session st !! "activeorg" = Some s) →
  (∀ o, Organization_get_from_cache db s = Some o →
        Organization.status o ≠ VISIBLE) →
  get_active_organization db request organization_slug access st
    = Some (None, st,
            [QOrganizationCache s;
             LogInfo "Active organization [%s] not found" [s]]).
Proof.
  intros Hsuper Hslug Hmiss.
  destruct Hslug as [-> | [-> Hstored]]; resolver_cases; try done.
  all: exfalso; match goal with n : ¬ _ ≠ VISIBLE |- _ => apply n end; by eapply Hmiss.
Qed.

Lemma superuser_lookup_failure_returns_none_witness :
  get_active_organization Examples.cache_miss Examples.as_root None None
      (mkState {["activeorg" := "acme"]} [])
    = Some (None, mkState {["activeorg" := "acme"]} [],
            [QOrganizationCache "acme";
             LogInfo "Active organization [%s] not found" ["acme"]]).
Proof.
  apply (superuser_lookup_failure_returns_none Examples.cache_miss
           Examples.as_root None None _ "acme").
  - reflexivity.
  - right. split; reflexivity.
  - intros o Ho. discriminate Ho.
Defined.

(** ** C2: [has_access] and the order of the role tiers *)

(** C2: [has_access] is false for a grant whose role tier is [None];
    otherwise it is true exactly when the stored tier is numerically at or
    below the required one.  Smaller is more privileged: a grant whose tier
    is at or below another grant's passes every check the other passes, and
    a tier that is at or below every required tier, as OWNER is among the
    role tiers, passes every check. *)
Theorem has_access_iff_tier_at_or_below (a : Access.t) (required : Z) :
  (Access._type a = None → Access.has_access a required = false) ∧
  (∀ stored, Access._type a = Some stored →
     (Access.has_access a required = true ↔ stored ≤ required)) ∧
  (∀ a' stored stored',
     Access._type a = Some stored → Access._type a' = Some stored' →
     stored ≤ stored' →
     Access.has_access a' required = true →
     Access.has_access a required = true) ∧
  (∀ db, Access._type a = Some (OWNER db) → OWNER db ≤ required →
     Access.has_access a required = true ∧
     (required = OWNER db → Access.is_owner db a = true)).
Proof.
  unfold Access.is_owner, Access.has_access.
  split; [by intros ->|]. split; [|split].
  - intros stored ->. apply Z.leb_le.
  - intros a' stored stored' -> -> Hle Hpass%Z.leb_le. apply Z.leb_le. lia.
  - intros db -> Hle. split; [by apply Z.leb_le|].
    intros ->. by apply Z.leb_le.
Qed.

Lemma has_access_iff_tier_at_or_below_witness :
  let owner := Access.mk (Some 0) true true [] in
  let member := Access.mk (Some 50) false true [] in
  Access.has_access (Access.init None) 50 = false
  ∧ (Access.has_access member 25 = true ↔ 50 ≤ 25)
  ∧ Access.has_access owner 25 = true.
Proof.
  intros owner member.
  split; [|split].
  - by apply (has_access_iff_tier_at_or_below (Access.init None) 50).
  - by apply (has_access_iff_tier_at_or_below member 25).
  - destruct (has_access_iff_tier_at_or_below owner 25) as (_ & _ & _ & Howner).
    destruct (Howner (Examples.store (λ _, None) [])) as [Hpass _];
      [reflexivity | cbn; lia | exact Hpass].
Defined.

(** ** C3: the grant of a superuser *)

(** C3: for a superuser, [from_user] returns the grant with role OWNER,
    [is_global] and [is_sso_valid] set, whatever the organization argument;
    it performs no store query and leaves the request as it is, and its
    result is the same under any store with the same OWNER constant. *)
Theorem from_user_superuser db user organization st :
  User.is_superuser user = true →
  Access.from_user db user organization st
    = Some (Access.access (Access.mk (Some (OWNER db)) true true []), st, [])
  ∧ ∀ db' organization',
      OWNER db' = OWNER db →
      Access.from_user db' user organization' st
      = Access.from_user db user organization st.
Proof.
  intros Hsuper. unfold Access.from_user. rewrite Hsuper.
  split; [reflexivity|]. by intros db' _ ->.
Qed.

Lemma from_user_superuser_witness :
  Access.from_user Examples.cache_miss Examples.root None Examples.no_session
  = Some (Access.access (Access.mk (Some 0) true true []),
          Examples.no_session, []).
Proof.
  by apply (from_user_superuser Examples.cache_miss Examples.root None
              Examples.no_session).
Defined.

(** ** C5: the grant of a membership *)

(** C5: [from_member] returns a grant whose teams are empty for a member
    with global access and the member's teams otherwise, whose SSO validity
    is true when the organization has no AuthIdentity and the identity's
    verdict on the member otherwise, and whose role and global flag are the
    member's; its one store query is the AuthIdentity lookup. *)
Theorem from_member_grant db member st :
  ∃ a,
    Access.from_member db member st
      = Some (a, st, [QAuthIdentity (OrganizationMember.organization_id member)]) ∧
    Access._teams a
      = (if OrganizationMember.has_global_access member then []
         else OrganizationMember.teams member) ∧
    Access._is_sso_valid a
      = match AuthIdentity_get db (OrganizationMember.organization_id member) with
        | None => true
        | Some auth_identity => AuthIdentity.is_valid auth_identity member
        end ∧
    Access._type a = Some (OrganizationMember.type member) ∧
    Access._is_global a = OrganizationMember.has_global_access member ∧
    (AuthIdentity_get db (OrganizationMember.organization_id member) = None →
     Access.is_sso_valid a = true).
Proof.
  eexists. split; [reflexivity|]. cbn.
  repeat split. by intros ->.
Qed.

(** ** C6: null role and global grants *)

(** C6, as stated, fails: the two invariants contradict each other on a
    grant that is global and has no role tier, and the code denies. *)
Lemma global_grant_without_role_cx :
  let a := Access.mk None true false [] in
  let t := Team.mk 1 "ops" 1 in
  Access.is_global a = true
  ∧ Access.has_team_access a t = false
  ∧ ¬ (∀ a : Access.t,
         (Access._type a = None →
          ∀ type team, Access.has_access a type = false
                       ∧ Access.has_team_access a team = false)
         ∧ (Access.is_global a = true →
            ∀ team, Access.has_team_access a team = true)).
Proof.
  intros a t. repeat split.
  intros Hclaim. destruct (Hclaim a) as [_ Hglobal].
  by specialize (Hglobal eq_refl t).
Qed.

(** C6, amended: a grant without a role tier is denied by every
    [has_access] and [has_team_access] query; a grant with a role tier and
    [is_global] set reaches every team; and the grant built from a
    membership with global access reaches every team, whatever the
    membership's own teams. *)
Theorem null_role_denies_and_global_reaches_all (a : Access.t) :
  (Access._type a = None →
   ∀ type team, Access.has_access a type = false
                ∧ Access.has_team_access a team = false)
  ∧ (Access._type a ≠ None → Access.is_global a = true →
     ∀ team, Access.has_team_access a team = true)
  ∧ (∀ db member st team,
       OrganizationMember.has_global_access member = true →
       ∃ a' ev, Access.from_member db member st = Some (a', st, ev)
                ∧ Access.has_team_access a' team = true).
Proof.
  unfold Access.has_access, Access.has_team_access, Access.is_global.
  split; [by intros ->|]. split.
  - intros Hrole Hglobal team. rewrite Hglobal. by destruct (Access._type a).
  - intros db member st team Hglobal.
    eexists _, _. split; [reflexivity|]. cbn. by rewrite Hglobal.
Qed.

Lemma null_role_denies_and_global_reaches_all_witness :
  let t := Team.mk 7 "ops" 1 in
  Access.has_team_access (Access.mk None false true [t]) t = false
  ∧ Access.has_team_access (Access.mk (Some 50) true false []) t = true.
Proof.
  intros t. split.
  - destruct (null_role_denies_and_global_reaches_all
                (Access.mk None false true [t])) as [Hnull _].
    by destruct (Hnull eq_refl 0 t) as [_ Hteam].
  - destruct (null_role_denies_and_global_reaches_all
                (Access.mk (Some 50) true false [])) as (_ & Hglobal & _).
    by apply Hglobal.
Defined.

(** ** C4: what a call does to the session *)

(** C4: a call of [get_active_organization] writes ["activeorg"] exactly
    when it returns an organization whose slug differs from the stored
    value, and then writes that slug; a call that returns [None] writes
    nothing.  Its only other session mutation is the deletion of
    ["activeorg"], made exactly when the search of the accessible
    organizations fails for a slug read from the session; the search runs
    for a non-empty slug of a user who is not a superuser.  With an explicit
    slug a failed call leaves the request as it was.  No other key and no
    message is touched. *)
Theorem session_written_iff_resolved db request organization_slug access st :
  ∃ res st' ev,
    get_active_organization db request organization_slug access st
      = Some (res, st', ev) ∧
    (∀ v, SessionSet "activeorg" v ∈ ev ↔
          ∃ o, res = Some o ∧ v = Organization.slug o ∧
               Some (Organization.slug o) ≠ session st !! "activeorg") ∧
    (res = None → ∀ key v, SessionSet key v ∉ ev) ∧
    (∀ e, e ∈ ev → is_session_mutation e = true →
          e = SessionDel "activeorg" ∨ ∃ v, e = SessionSet "activeorg" v) ∧
    (SessionDel "activeorg" ∈ ev ↔
       organization_slug = None ∧ ∃ s, not_in_scope s ∈ ev) ∧
    (∀ s, not_in_scope s ∈ ev ↔
       (organization_slug = Some s
        ∨ organization_slug = None ∧ session st !! "activeorg" = Some s) ∧
       truthy s = true ∧
       User.is_superuser (user request) = false ∧
       next_with_slug (Organization_get_for_user db (user request) access) s
         = None) ∧
    (organization_slug ≠ None → res = None → st' = st) ∧
    (∀ o, res = Some o →
          session st' !! "activeorg" = Some (Organization.slug o)) ∧
    (res = None → SessionDel "activeorg" ∈ ev →
     session st' !! "activeorg" = None) ∧
    (res = None → SessionDel "activeorg" ∉ ev → st' = st) ∧
    messages st' = messages st ∧
    (∀ key, key ≠ "activeorg" → session st' !! key = session st !! key).
Proof.
  destruct organization_slug as [slug|]; resolver_cases.
  all: eexists _, _, _; split; [reflexivity|].
  all: search_facts; cbn; rewrite ?app_nil_r.
  all: repeat match goal with |- _ ∧ _ => split end.
  all: try done.
  all: try (by destruct st).
  all: try (intros; by rewrite lookup_insert_ne).
  all: try (intros; by rewrite lookup_delete_ne).
  all: try (intros; by (rewrite lookup_insert_ne by done; rewrite lookup_delete_ne)).
  all: try (intros; simplify_eq; by rewrite ?lookup_insert_eq, ?lookup_delete_eq).
  all: try match goal with
       | |- ∀ s, not_in_scope s ∈ _ ↔ _ =>
           intros s'; split;
           [ set_unfold; naive_solver
           | intros (Hslug & ? & ? & ?); destruct Hslug as [?|[? ?]];
             simplify_eq; first [congruence | set_unfold; naive_solver] ]
       end.
  all: set_unfold; naive_solver.
Qed.

(** ** C7: project endpoints *)

(** C7: for a project endpoint, [convert_args] resolves the project inside
    the resolved organization, by the cache entry for the slug and, for a
    user who is not a superuser, the project's access check; it attaches as
    team the owning team of that project, and no team when no project
    resolves; it makes no team lookup and no team access check of its own;
    and on the scope it builds, the project-level permission is the
    organization-level permission together with a resolved project. *)
Theorem project_permission_via_owning_team
    db self request organization_slug project_slug st :
  ∃ res st' ev0 ev1,
    get_active_organization db request organization_slug None st
      = Some (res, st', ev0) ∧
    let resolved :=
      match res with
      | Some org =>
          match Project_get_from_cache db project_slug org with
          | Some p =>
              if User.is_superuser (user request)
                 || Project_has_access db p (user request)
                      (required_access self)
              then Some p else None
          | None => None
          end
      | None => None
      end in
    let scope := mkScope res (Project.team <$> resolved) resolved in
    ProjectView.convert_args db self request organization_slug project_slug st
      = Some (scope, st', ev0 ++ ev1) ∧
    (∀ e, e ∈ ev0 ++ ev1 → is_team_resolution e = false) ∧
    (∀ org, res = Some org → QProjectCache project_slug org ∈ ev1) ∧
    ∀ access,
      has_permission IsProjectView self access scope
      = has_permission IsOrganizationView self access scope
        && bool_decide (resolved ≠ None).
Proof.
  destruct (get_active_organization_footprint db request organization_slug
              None st) as (res & st1 & ev0 & Hrun & Hev & _ & _).
  assert (∀ e, e ∈ ev0 → is_team_resolution e = false) as Hev0.
  { intros e He. specialize (Hev e He). by destruct e. }
  exists res, st1, ev0.
  run_view. rewrite Hrun.
  destruct res as [org|]; cbn;
    [destruct (Project_get_from_cache db project_slug org) as [p|];
     [destruct (User.is_superuser (user request));
      [|destruct (Project_has_access db p (user request) (required_access self))]|]|].
  all: cbn; eexists; split; [reflexivity|]; split; [reflexivity|].
  all: split; [intros e [He|He]%elem_of_app; [by apply Hev0|];
               set_unfold; naive_solver|].
  all: split; [intros org' [=]; subst; set_unfold; naive_solver|].
  all: intros access.
  all: unfold ProjectView.has_permission, TeamView.has_permission,
         OrganizationView.has_permission; cbn.
  all: by destruct (valid_sso_required self), (is_sso_valid access).
Qed.

Lemma project_permission_via_owning_team_witness :
  ∃ st' ev,
    ProjectView.convert_args Examples.with_project
        Examples.organization_endpoint Examples.as_alice (Some "acme") "web"
        Examples.no_session
    = Some (mkScope (Some Examples.acme) (Some Examples.ops)
              (Some Examples.web), st', ev)
    ∧ (∀ e, e ∈ ev → is_team_resolution e = false)
    ∧ ∀ access,
        is_sso_valid access = true →
        has_permission IsProjectView Examples.organization_endpoint access
          (mkScope (Some Examples.acme) (Some Examples.ops)
             (Some Examples.web))
        = true.
Proof.
  destruct (project_permission_via_owning_team Examples.with_project
              Examples.organization_endpoint Examples.as_alice (Some "acme")
              "web" Examples.no_session)
    as (res & st' & ev0 & ev1 & Hrun & Hconv & Hteam & _ & Hallowed).
  vm_compute in Hrun. injection Hrun as <- <- <-.
  eexists _, _. split; [exact Hconv|]. split; [exact Hteam|].
  intros access Hsso. rewrite Hallowed. cbn.
  unfold OrganizationView.has_permission. cbn. by rewrite Hsso.
Defined.

(** ** C8: the response to a denied permission check *)

(** C8: when [dispatch] of an organization, team or project view reaches
    the permission check and the check denies, the response is the redirect
    to the SSO-link page of the resolved organization, with the error
    message added to the request, if the organization resolved, the user is
    authenticated, the view requires a valid SSO link and the grant's
    [is_sso_valid] is false; in every other case it is the redirect to the
    no-permission URL and nothing is added. *)
Theorem denied_permission_response
    db cls self request kwargs st scope st1 ev1 access st2 ev2 :
  cls ≠ IsBaseView →
  BaseView.is_auth_required self request = false →
  BaseView.is_sudo_required self request = false →
  convert_args db cls self request kwargs st = Some (scope, st1, ev1) →
  get_access db cls request scope st1 = Some (access, st2, ev2) →
  has_permission cls self access scope = false →
  (∀ org,
     organization scope = Some org →
     User.is_authenticated (user request) = true →
     valid_sso_required self = true →
     is_sso_valid access = false →
     dispatch db cls self request kwargs st
     = Some (HttpResponseRedirect
               (reverse "sentry-auth-link-identity" [Organization.slug org]),
             mkState (session st2)
                     (messages st2 ++ [(ERROR, ERR_MISSING_SSO_LINK)]),
             ev1 ++ ev2 ++ [MessageAdd ERROR ERR_MISSING_SSO_LINK]))
  ∧ (organization scope = None
     ∨ User.is_authenticated (user request) = false
     ∨ valid_sso_required self = false
     ∨ is_sso_valid access = true →
     dispatch db cls self request kwargs st
     = Some (HttpResponseRedirect (reverse "sentry" []), st2, ev1 ++ ev2)).
Proof.
  intros Hcls Hauth Hsudo Hscope Haccess Hdenied.
  unfold dispatch. rewrite Hauth, Hsudo.
  unfold mbind, M_bind. rewrite Hscope, Haccess, Hdenied. cbn.
  assert (handle_permission_required cls self request access scope
          = OrganizationView.handle_permission_required self request access
              (organization scope)) as -> by by destruct cls.
  unfold OrganizationView.handle_permission_required,
    OrganizationView.needs_link.
  split.
  - intros org -> -> -> ->. cbn.
    unfold mbind, M_bind, add_message, not_none, ret, mret, M_ret. cbn.
    reflexivity.
  - intros Hother.
    assert (match organization scope with
            | Some _ =>
                User.is_authenticated (user request)
                && valid_sso_required self && negb (is_sso_valid access)
            | None => false
            end = false) as ->.
    { destruct (organization scope); [|done].
      destruct Hother as [? | [-> | [-> | ->]]]; [done|done| |];
        by rewrite ?andb_false_r. }
    unfold ret, mret, M_ret. cbn. by rewrite ?app_nil_r.
Qed.

Lemma denied_permission_response_witness :
  dispatch Examples.sso_unlinked IsOrganizationView
      Examples.organization_endpoint Examples.as_alice Examples.acme_url
      Examples.no_session
  = Some (HttpResponseRedirect (reverse "sentry-auth-link-identity" ["acme"]),
          mkState {["activeorg" := "acme"]} [(ERROR, ERR_MISSING_SSO_LINK)],
          [QOrganizationsForUser Examples.alice None;
           SessionSet "activeorg" "acme";
           QOrganizationMember Examples.alice Examples.acme;
           QAuthIdentity 1;
           MessageAdd ERROR ERR_MISSING_SSO_LINK]).
Proof.
  pose proof (denied_permission_response Examples.sso_unlinked
    IsOrganizationView Examples.organization_endpoint Examples.as_alice
    Examples.acme_url Examples.no_session
    (mkScope (Some Examples.acme) None None)
    (mkState {["activeorg" := "acme"]} [])
    [QOrganizationsForUser Examples.alice None; SessionSet "activeorg" "acme"]
    (Access.access (Access.mk (Some 50) false false []))
    (mkState {["activeorg" := "acme"]} [])
    [QOrganizationMember Examples.alice Examples.acme; QAuthIdentity 1])
    as Hdenied.
  destruct Hdenied as [Hlink _]; [done | reflexivity ..|].
  exact (Hlink Examples.acme eq_refl eq_refl eq_refl eq_refl).
Defined.

(** ** C9: calling the resolver twice *)

(** C9: with the path parameters and the store unchanged, a second call on
    the request as the first call left it returns the same organization and
    makes no session mutation.  The two organization managers live outside
    this file; what the proof needs of them is that they agree on the
    organization resolved: when the user is a superuser and no slug was
    given, the direct lookup of the resolved organization's slug returns
    that organization, with status VISIBLE.  For every other user and for
    every explicit slug nothing is assumed of the store. *)
Theorem get_active_organization_idempotent
    db request organization_slug access st res1 st1 ev1 :
  get_active_organization db request organization_slug access st
    = Some (res1, st1, ev1) →
  (User.is_superuser (user request) = true → organization_slug = None →
   ∀ o, res1 = Some o →
        Organization_get_from_cache db (Organization.slug o) = Some o
        ∧ Organization.status o = VISIBLE) →
  ∃ ev2,
    get_active_organization db request organization_slug access st1
      = Some (res1, st1, ev2)
    ∧ ∀ e, e ∈ ev2 → is_session_mutation e = false.
Proof.
  enough (∀ again,
            again = get_active_organization db request organization_slug access →
            get_active_organization db request organization_slug access st
              = Some (res1, st1, ev1) →
            (User.is_superuser (user request) = true → organization_slug = None →
             ∀ o, res1 = Some o →
                  Organization_get_from_cache db (Organization.slug o) = Some o
                  ∧ Organization.status o = VISIBLE) →
            ∃ ev2, again st1 = Some (res1, st1, ev2)
                   ∧ ∀ e, e ∈ ev2 → is_session_mutation e = false) as Haux
    by by apply Haux.
  intros again Hagain.
  destruct organization_slug as [slug|].
  - resolver_cases.
    all: intros [= <- <- <-] Hcoherent; subst again.
    all: search_facts; subst.
    all: resolver_cases.
    all: try congruence.
    all: try (eexists; split; [reflexivity|]; intros e He; set_unfold; naive_solver).
  - resolver_cases.
    all: intros [= <- <- <-] Hcoherent; subst again.
    all: search_facts; subst.
    all: try (destruct (Hcoherent eq_refl eq_refl _ eq_refl) as [? ?]).
    all: resolver_cases.
    all: try congruence.
    all: try (eexists; split; [reflexivity|]; intros e He; set_unfold; naive_solver).
Qed.

Lemma get_active_organization_idempotent_witness :
  let db := Examples.store (λ _, Some Examples.acme) [Examples.acme] in
  ∃ ev2,
    get_active_organization db Examples.as_root None None Examples.remembered
      = Some (Some Examples.acme, Examples.remembered, ev2)
    ∧ ∀ e, e ∈ ev2 → is_session_mutation e = false.
Proof.
  intros db.
  apply (get_active_organization_idempotent db Examples.as_root None None
           Examples.no_session (Some Examples.acme) Examples.remembered
           [QOrganizationsForUser Examples.root None;
            SessionSet "activeorg" "acme"]).
  - reflexivity.
  - intros _ _ o [= <-]. split; reflexivity.
Defined.

(** ** C10: the access tier used to resolve the organization *)

(** C10: a team view and a project view resolve the organization with
    [access] left at [None]: the organization and the session they end with
    are those of [get_active_organization] called with [None], the fetch of
    the accessible organizations carries [None], while the access check on
    the team or the project carries the view's [required_access].  An
    organization view passes its [required_access] to the resolution. *)
Theorem organization_resolved_without_required_access
    db self request organization_slug st :
  (∀ team_slug, ∃ scope st' ev ev0,
     TeamView.convert_args db self request organization_slug team_slug st
       = Some (scope, st', ev) ∧
     get_active_organization db request organization_slug None st
       = Some (organization scope, st', ev0) ∧
     (∀ u a, QOrganizationsForUser u a ∈ ev → a = None) ∧
     (User.is_superuser (user request) = false →
      QOrganizationsForUser (user request) None ∈ ev) ∧
     (∀ t u a, QTeamAccess t u a ∈ ev → a = required_access self) ∧
     (∀ org t, organization scope = Some org →
        Team_get_from_cache db team_slug org = Some t →
        User.is_superuser (user request) = false →
        QTeamAccess t (user request) (required_access self) ∈ ev)) ∧
  (∀ project_slug, ∃ scope st' ev ev0,
     ProjectView.convert_args db self request organization_slug project_slug st
       = Some (scope, st', ev) ∧
     get_active_organization db request organization_slug None st
       = Some (organization scope, st', ev0) ∧
     (∀ u a, QOrganizationsForUser u a ∈ ev → a = None) ∧
     (User.is_superuser (user request) = false →
      QOrganizationsForUser (user request) None ∈ ev) ∧
     (∀ p u a, QProjectAccess p u a ∈ ev → a = required_access self) ∧
     (∀ org p, organization scope = Some org →
        Project_get_from_cache db project_slug org = Some p →
        User.is_superuser (user request) = false →
        QProjectAccess p (user request) (required_access self) ∈ ev)) ∧
  (∃ scope st' ev,
     OrganizationView.convert_args db self request organization_slug st
       = Some (scope, st', ev) ∧
     get_active_organization db request organization_slug
         (required_access self) st
       = Some (organization scope, st', ev) ∧
     (∀ u a, QOrganizationsForUser u a ∈ ev → a = required_access self) ∧
     (User.is_superuser (user request) = false →
      QOrganizationsForUser (user request) (required_access self) ∈ ev)).
Proof.
  destruct (get_active_organization_footprint db request organization_slug
              None st) as (res & st1 & ev1 & Hrun & Hev & Hfetch & _).
  destruct (get_active_organization_footprint db request organization_slug
              (required_access self) st)
    as (res' & st1' & ev1' & Hrun' & Hev' & Hfetch' & _).
  assert (∀ u a, QOrganizationsForUser u a ∈ ev1 → a = None) as Hnone.
  { intros u a He. by destruct (Hev _ He). }
  assert (∀ t u a, QTeamAccess t u a ∉ ev1) as Hteam.
  { intros t u a He. by destruct (Hev _ He). }
  assert (∀ p u a, QProjectAccess p u a ∉ ev1) as Hproject.
  { intros p u a He. by destruct (Hev _ He). }
  split; [|split].
  - intros team_slug. run_view. rewrite Hrun.
    destruct res as [org|]; cbn;
      [destruct (Team_get_from_cache db team_slug org) as [t|] eqn:Hcache;
       [destruct (User.is_superuser (user request)) eqn:Hsuper;
        [|destruct (Team_has_access db t (user request) (required_access self))]|]|].
    all: cbn; eexists _, _, _, _; split; [reflexivity|]; cbn.
    all: split; [done|].
    all: rewrite ?app_nil_r; repeat split.
    all: try (intros; set_unfold; naive_solver).
  - intros project_slug. run_view. rewrite Hrun.
    destruct res as [org|]; cbn;
      [destruct (Project_get_from_cache db project_slug org) as [p|] eqn:Hcache;
       [destruct (User.is_superuser (user request)) eqn:Hsuper;
        [|destruct (Project_has_access db p (user request) (required_access self))]|]|].
    all: cbn; eexists _, _, _, _; split; [reflexivity|]; cbn.
    all: split; [done|].
    all: rewrite ?app_nil_r; repeat split.
    all: try (intros; set_unfold; naive_solver).
  - run_view. rewrite Hrun'. cbn. eexists _, _, _. split; [reflexivity|]. cbn.
    rewrite app_nil_r. repeat split; [|done].
    intros u a He. by destruct (Hev' _ He).
Qed.

(** * Further properties of the resolver *)

(** X1: [get_active_organization] never raises: the one statement that can,
    [del request.session['activeorg']], runs only when the session holds
    the key.  Every deletion it makes is of a key the session held at the
    start of the call. *)
Theorem get_active_organization_never_raises
    db request organization_slug access st :
  ∃ res st' ev,
    get_active_organization db request organization_slug access st
      = Some (res, st', ev) ∧
    ∀ key, SessionDel key ∈ ev →
           organization_slug = None ∧ is_Some (session st !! key).
Proof.
  destruct organization_slug as [slug|]; resolver_cases.
  all: eexists _, _, _; split; [reflexivity|].
  all: intros key Hdel; set_unfold; naive_solver.
Qed.

(** X2: where a resolved organization comes from.  For a user who is not a
    superuser it is one of the organizations the accessible-organizations
    query returned.  For a superuser it is either the VISIBLE organization
    the cache holds for the slug in use, or, when neither the path nor the
    session gives a slug, the first accessible organization. *)
Theorem resolved_organization_provenance
    db request organization_slug access st :
  ∃ res st' ev,
    get_active_organization db request organization_slug access st
      = Some (res, st', ev) ∧
    ∀ o, res = Some o →
      (User.is_superuser (user request) = false →
       o ∈ Organization_get_for_user db (user request) access) ∧
      (User.is_superuser (user request) = true →
       (∃ s, effective_slug st organization_slug = Some s ∧
             Organization_get_from_cache db s = Some o ∧
             Organization.status o = VISIBLE)
       ∨ (effective_slug st organization_slug = None ∧
          head (Organization_get_for_user db (user request) access) = Some o)).
Proof.
  unfold effective_slug.
  destruct organization_slug as [slug|]; resolver_cases.
  all: eexists _, _, _; split; [reflexivity|].
  all: search_facts; intros o [= <-] || (intros o [=]).
  all: split; intros [=]; try (set_unfold; naive_solver).
  all: try (left; eexists; by repeat split).
  all: try (right; by split).
Qed.

(** X3: an explicit slug is never replaced.  For a user who is not a
    superuser, a call with the slug [s] returns the first accessible
    organization whose slug is [s], and [None] when there is none or [s] is
    empty: it never falls back to another organization, and it never
    deletes the stored slug. *)
Theorem explicit_slug_resolution db request s access st :
  User.is_superuser (user request) = false →
  ∃ st' ev,
    get_active_organization db request (Some s) access st
      = Some (if truthy s
              then next_with_slug
                     (Organization_get_for_user db (user request) access) s
              else None, st', ev) ∧
    (∀ o, (if truthy s
           then next_with_slug
                  (Organization_get_for_user db (user request) access) s
           else None) = Some o → Organization.slug o = s) ∧
    ∀ key, SessionDel key ∉ ev.
Proof.
  intros Hsuper. resolver_cases.
  all: eexists _, _; split; [reflexivity|].
  all: search_facts; split; [by intros o' [= <-] | ].
  all: intros key Hdel; set_unfold; naive_solver.
Qed.

Lemma explicit_slug_resolution_witness :
  ∃ st' ev,
    get_active_organization Examples.cache_miss Examples.as_alice
        (Some "other") None Examples.no_session
    = Some (None, st', ev).
Proof.
  destruct (explicit_slug_resolution Examples.cache_miss Examples.as_alice
              "other" None Examples.no_session eq_refl)
    as (st' & ev & Hrun & _).
  by exists st', ev.
Defined.

(** X4: without an explicit slug, a user who is not a superuser gets the
    accessible organization the stored slug names, and otherwise the first
    accessible organization, [None] when there is none.  Afterwards the
    session stores the slug of the organization returned, and no slug when
    none is returned (an empty stored slug apart, which is left alone). *)
Theorem implicit_slug_resolution db request access st :
  User.is_superuser (user request) = false →
  let organizations := Organization_get_for_user db (user request) access in
  let resolved :=
    match session st !! "activeorg" with
    | Some s =>
        if truthy s then
          match next_with_slug organizations s with
          | Some o => Some o
          | None => head organizations
          end
        else head organizations
    | None => head organizations
    end in
  ∃ st' ev,
    get_active_organization db request None access st
      = Some (resolved, st', ev) ∧
    (session st !! "activeorg" ≠ Some "" →
     session st' !! "activeorg" = Organization.slug <$> resolved).
Proof.
  intros Hsuper organizations resolved. subst organizations resolved.
  resolver_cases.
  all: eexists _, _; split; [reflexivity|].
  all: search_facts; cbn; intros Hempty.
  all: rewrite ?lookup_insert_eq, ?lookup_delete_eq; try congruence.
  all: unfold truthy in *; case_bool_decide; simplify_eq; done.
Qed.

Lemma implicit_slug_resolution_witness :
  ∃ st' ev,
    get_active_organization Examples.cache_miss Examples.as_alice None None
        (mkState {["activeorg" := "gone"]} [])
    = Some (Some Examples.acme, st', ev)
    ∧ session st' !! "activeorg" = Some "acme".
Proof.
  destruct (implicit_slug_resolution Examples.cache_miss Examples.as_alice
              None (mkState {["activeorg" := "gone"]} []) eq_refl)
    as (st' & ev & Hrun & Hsession).
  exists st', ev. split; [exact Hrun|]. by apply Hsession.
Defined.

(** X5: each call sends exactly one query to the store: the direct cache
    lookup when the user is a superuser and the path or the session gives a
    slug, the accessible-organizations query in every other case.  The two
    are never combined. *)
Theorem one_store_query_per_resolution
    db request organization_slug access st :
  ∃ res st' ev,
    get_active_organization db request organization_slug access st
      = Some (res, st', ev) ∧
    List.filter is_store_query ev
    = match effective_slug st organization_slug with
      | Some s =>
          if User.is_superuser (user request) then [QOrganizationCache s]
          else [QOrganizationsForUser (user request) access]
      | None => [QOrganizationsForUser (user request) access]
      end.
Proof.
  unfold effective_slug.
  destruct organization_slug as [slug|]; resolver_cases.
  all: eexists _, _, _; split; [reflexivity|]; done.
Qed.

(** * Further properties of the grants *)

(** X6: a user who is not a superuser and has no membership in the
    organization, or is given no organization, gets a grant that denies
    every [has_access] and [has_team_access] query, is not global and is
    not SSO-valid; the AuthIdentity store is not consulted.  With a resolved
    organization such a user passes the organization-level check only on a
    view that does not require a valid SSO link, and is otherwise sent to
    the SSO-link page when authenticated. *)
Theorem from_user_without_membership db u organization st :
  User.is_superuser u = false →
  (∀ org, organization = Some org → OrganizationMember_get db u org = None) →
  ∃ g ev,
    Access.from_user db u organization st = Some (g, st, ev) ∧
    is_global g = false ∧
    is_sso_valid g = false ∧
    (∀ type, has_access g type = false) ∧
    (∀ team, has_team_access g team = false) ∧
    (∀ organization_id, QAuthIdentity organization_id ∉ ev) ∧
    (∀ self org, organization = Some org →
       OrganizationView.has_permission self g organization
       = negb (valid_sso_required self) ∧
       ∀ request, user request = u →
         OrganizationView.needs_link self request g organization
         = User.is_authenticated u && valid_sso_required self).
Proof.
  intros Hsuper Hmember. unfold Access.from_user. rewrite Hsuper.
  destruct organization as [org|].
  - rewrite (Hmember org eq_refl).
    eexists _, _. split; [reflexivity|]. cbn.
    repeat split; try done.
    + intros id Hin. set_unfold. naive_solver.
    + by destruct (valid_sso_required self).
    + intros request <-. unfold OrganizationView.needs_link. cbn.
      by rewrite andb_true_r.
  - eexists _, _. split; [reflexivity|]. cbn.
    repeat split; try done.
    intros id Hin. set_unfold. naive_solver.
Qed.

Lemma from_user_without_membership_witness :
  ∃ g ev,
    Access.from_user Examples.cache_miss Examples.alice (Some Examples.acme)
        Examples.no_session
    = Some (g, Examples.no_session, ev)
    ∧ is_sso_valid g = false.
Proof.
  destruct (from_user_without_membership Examples.cache_miss Examples.alice
              (Some Examples.acme) Examples.no_session eq_refl)
    as (g & ev & Hrun & _ & Hsso & _).
  - intros org _. reflexivity.
  - by exists g, ev.
Defined.

(** X7: the grant built from a membership reaches a team exactly when the
    membership has global access or one of its teams has the team's primary
    key; a membership without teams and without global access reaches no
    team. *)
Theorem membership_reaches_its_teams db member st team :
  ∃ a ev,
    Access.from_member db member st = Some (a, st, ev) ∧
    (Access.has_team_access a team = true ↔
       OrganizationMember.has_global_access member = true
       ∨ ∃ t, t ∈ OrganizationMember.teams member ∧ Team.id t = Team.id team) ∧
    (OrganizationMember.has_global_access member = false →
     OrganizationMember.teams member = [] →
     Access.has_team_access a team = false).
Proof.
  eexists _, _. split; [reflexivity|].
  unfold Access.has_team_access. cbn.
  destruct (OrganizationMember.has_global_access member); cbn.
  - split; [|done]. split; [by left | done].
  - split; [|by intros _ ->].
    rewrite existsb_exists. split.
    + intros (t & Hin%list_elem_of_In & Heq). right. exists t. split; [done|].
      unfold Team.eqb in Heq. by apply bool_decide_eq_true in Heq.
    + intros [? | (t & Hin & Heq)]; [done|].
      exists t. split; [by apply list_elem_of_In|].
      unfold Team.eqb. by apply bool_decide_eq_true.
Qed.

(** X8: when OWNER is at or below ADMIN among the role tiers, every grant
    that [is_owner] accepts is accepted by [is_admin]; a grant without a
    role tier is accepted by neither. *)
Theorem owner_is_admin db (a : Access.t) :
  OWNER db ≤ ADMIN db →
  (Access.is_owner db a = true → Access.is_admin db a = true) ∧
  (Access._type a = None →
   Access.is_owner db a = false ∧ Access.is_admin db a = false).
Proof.
  intros Hle. unfold Access.is_owner, Access.is_admin, Access.has_access.
  destruct (Access._type a) as [ty|]; [|done].
  split; [|done]. intros Howner%Z.leb_le. apply Z.leb_le. lia.
Qed.

Lemma owner_is_admin_witness :
  Access.is_admin Examples.cache_miss (Access.mk (Some 0) true true []) = true.
Proof.
  destruct (owner_is_admin Examples.cache_miss
              (Access.mk (Some 0) true true [])) as [Hadmin _].
  - cbn. lia.
  - by apply Hadmin.
Defined.

(** X17: for a member who is not a superuser, the organization-level
    permission check depends on the SSO link alone: it passes when the view
    does not require a valid link, when the member's organization has no
    AuthIdentity, or when the AuthIdentity accepts the member.  Neither the
    member's role tier nor the view's [required_access] enters the
    check.  The grant costs two store queries, the membership and the
    AuthIdentity of the membership's organization. *)
Theorem member_permission_is_sso_only db u org member st self :
  User.is_superuser u = false →
  OrganizationMember_get db u org = Some member →
  ∃ g,
    Access.from_user db u (Some org) st
    = Some (g, st,
            [QOrganizationMember u org;
             QAuthIdentity (OrganizationMember.organization_id member)]) ∧
    OrganizationView.has_permission self g (Some org)
    = negb (valid_sso_required self)
      || match AuthIdentity_get db
                 (OrganizationMember.organization_id member) with
         | None => true
         | Some auth_identity => AuthIdentity.is_valid auth_identity member
         end.
Proof.
  intros Hsuper Hmember. unfold Access.from_user. rewrite Hsuper. cbn.
  rewrite Hmember. cbn. eexists. split; [reflexivity|].
  unfold OrganizationView.has_permission. cbn.
  destruct (valid_sso_required self); cbn; [|done].
  by destruct (AuthIdentity_get db _) as [auth_identity|];
    [destruct (AuthIdentity.is_valid auth_identity member)|].
Qed.

Lemma member_permission_is_sso_only_witness :
  ∃ g,
    Access.from_user Examples.sso_unlinked Examples.alice (Some Examples.acme)
        Examples.no_session
    = Some (g, Examples.no_session,
            [QOrganizationMember Examples.alice Examples.acme; QAuthIdentity 1])
    ∧ OrganizationView.has_permission Examples.organization_endpoint g
        (Some Examples.acme) = false.
Proof.
  destruct (member_permission_is_sso_only Examples.sso_unlinked Examples.alice
              Examples.acme Examples.member_of_acme Examples.no_session
              Examples.organization_endpoint eq_refl eq_refl)
    as (g & Hrun & Hallowed).
  by exists g.
Defined.

(** * Further properties of [dispatch] *)

(** X9: a request that fails the authentication stage is answered before
    anything is resolved: the response redirects to the organization's
    login page when the URL carries an organization slug and to the login
    URL otherwise; the session remembers the requested path under
    ["_next"] and keeps every other key; no store query is made, whatever
    the view class and its other attributes. *)
Theorem unauthenticated_request_redirected db cls self request kwargs st :
  auth_required self = true →
  User.is_authenticated (user request) = false →
  ∃ st',
    dispatch db cls self request kwargs st
    = Some (HttpResponseRedirect
              match kw_organization_slug kwargs with
              | Some s => reverse "sentry-auth-organization" [s]
              | None => get_login_url
              end,
            st', [SessionSet "_next" (get_full_path request)]) ∧
    session st' !! "_next" = Some (get_full_path request) ∧
    (∀ key, key ≠ "_next" → session st' !! key = session st !! key) ∧
    messages st' = messages st.
Proof.
  intros Hrequired Hanonymous.
  unfold dispatch, BaseView.is_auth_required. rewrite Hrequired, Hanonymous.
  cbn. eexists. split; [reflexivity|]. cbn.
  split; [by rewrite lookup_insert_eq|].
  split; [|done]. intros key Hkey. by rewrite lookup_insert_ne.
Qed.

Lemma unauthenticated_request_redirected_witness :
  ∃ st',
    dispatch Examples.sso_unlinked IsProjectView Examples.organization_endpoint
        (mkRequest (User.mk 3 false false) false "/acme/web/")
        Examples.acme_url Examples.no_session
    = Some (HttpResponseRedirect (reverse "sentry-auth-organization" ["acme"]),
            st', [SessionSet "_next" "/acme/web/"]).
Proof.
  destruct (unauthenticated_request_redirected Examples.sso_unlinked
              IsProjectView Examples.organization_endpoint
              (mkRequest (User.mk 3 false false) false "/acme/web/")
              Examples.acme_url Examples.no_session eq_refl eq_refl)
    as (st' & Hrun & _).
  by exists st'.
Defined.

(** X10: a request that passes the authentication stage of a view that
    requires sudo, without sudo, is answered by the sudo redirect to the
    requested path; the request is left as it was and no store query is
    made. *)
Theorem sudo_required_redirect db cls self request kwargs st :
  BaseView.is_auth_required self request = false →
  sudo_required self = true →
  is_sudo request = false →
  dispatch db cls self request kwargs st
  = Some (redirect_to_sudo (get_full_path request), st, []).
Proof.
  intros Hauth Hrequired Hsudo.
  unfold dispatch, BaseView.is_sudo_required.
  by rewrite Hauth, Hrequired, Hsudo.
Qed.

Lemma sudo_required_redirect_witness :
  dispatch Examples.sso_unlinked IsOrganizationView
      (mkViewAttrs true true None true) Examples.as_alice Examples.acme_url
      Examples.no_session
  = Some (redirect_to_sudo "/acme/", Examples.no_session, []).
Proof.
  by apply (sudo_required_redirect Examples.sso_unlinked IsOrganizationView
              (mkViewAttrs true true None true) Examples.as_alice
              Examples.acme_url Examples.no_session).
Defined.

(** ** Stages of [dispatch] *)

Lemma from_user_runs db u organization st :
  ∃ g ev, Access.from_user db u organization st = Some (g, st, ev).
Proof.
  unfold Access.from_user.
  destruct (User.is_superuser u); [by eexists _, _|].
  destruct organization as [org|]; [|by eexists _, _].
  cbn. destruct (OrganizationMember_get db u org); by eexists _, _.
Qed.

Lemma permission_required_redirects cls self request access scope st :
  ∃ url st' ev,
    handle_permission_required cls self request access scope st
    = Some (HttpResponseRedirect url, st', ev).
Proof.
  destruct cls; cbn; try by eexists _, _, _.
  all: unfold OrganizationView.handle_permission_required,
         OrganizationView.needs_link.
  all: destruct (organization scope); cbn; [|by eexists _, _, _].
  all: destruct (_ && _); by eexists _, _, _.
Qed.

(** The shape of the scope each view class builds. *)
Lemma convert_args_scope_shape db cls self request kwargs st scope st' ev :
  convert_args db cls self request kwargs st = Some (scope, st', ev) →
  match cls with
  | IsBaseView => scope = mkScope None None None
  | IsOrganizationView => team scope = None ∧ project scope = None
  | IsTeamView =>
      project scope = None ∧ (team scope ≠ None → organization scope ≠ None)
  | IsProjectView =>
      team scope = Project.team <$> project scope
      ∧ (project scope ≠ None → organization scope ≠ None)
  end.
Proof.
  destruct cls; unfold convert_args.
  - by intros [= <- _ _].
  - run_view.
    destruct (get_active_organization _ _ _ _ st) as [[[res st1] ev1]|]; [|done].
    cbn. by intros [= <- _ _].
  - unfold required.
    destruct (kw_organization_slug kwargs) as [slug|]; [|done].
    destruct (kw_team_slug kwargs) as [team_slug|]; [|done].
    run_view.
    destruct (get_active_organization db request (Some slug) None st)
      as [[[res st1] ev1]|]; [|done].
    destruct res as [org|]; cbn; [|by intros [= <- _ _]].
    destruct (Team_get_from_cache db team_slug org) as [t|];
      [destruct (User.is_superuser (user request));
       [|destruct (Team_has_access db t (user request) (required_access self))]|].
    all: by intros [= <- _ _].
  - unfold required.
    destruct (kw_organization_slug kwargs) as [slug|]; [|done].
    destruct (kw_project_slug kwargs) as [project_slug|]; [|done].
    run_view.
    destruct (get_active_organization db request (Some slug) None st)
      as [[[res st1] ev1]|]; [|done].
    destruct res as [org|]; cbn; [|by intros [= <- _ _]].
    destruct (Project_get_from_cache db project_slug org) as [p|];
      [destruct (User.is_superuser (user request));
       [|destruct (Project_has_access db p (user request) (required_access self))]|].
    all: by intros [= <- _ _].
Qed.

(** X11: the handler is reached only by a request that passed every
    stage: the user is authenticated when the view requires it, has sudo
    when the view requires it, and for an organization, team or project
    view the organization is resolved, the grant is SSO-valid when the view
    requires it, the team is resolved for a team view, and for a project
    view the project is resolved with its owning team as the team. *)
Theorem handler_reached_only_when_permitted
    db cls self request kwargs st scope access st' ev :
  dispatch db cls self request kwargs st = Some (handled scope access, st', ev) →
  (auth_required self = true → User.is_authenticated (user request) = true) ∧
  (sudo_required self = true → is_sudo request = true) ∧
  match cls with
  | IsBaseView => access = Access.no_access
  | IsOrganizationView | IsTeamView | IsProjectView =>
      organization scope ≠ None ∧
      (valid_sso_required self = true → is_sso_valid access = true) ∧
      (cls = IsTeamView → team scope ≠ None) ∧
      (cls = IsProjectView →
       project scope ≠ None ∧ team scope = Project.team <$> project scope)
  end.
Proof.
  unfold dispatch.
  destruct (BaseView.is_auth_required self request) eqn:Hauth; [done|].
  destruct (BaseView.is_sudo_required self request) eqn:Hsudo; [done|].
  unfold mbind, M_bind.
  destruct (convert_args db cls self request kwargs st)
    as [[[scope1 st1] ev1]|] eqn:Hscope; [|done].
  destruct (get_access db cls request scope1 st1)
    as [[[access1 st2] ev2]|] eqn:Haccess; [|done].
  destruct (has_permission cls self access1 scope1) eqn:Hallowed; cbn.
  2: { destruct (permission_required_redirects cls self request access1
                   scope1 st2) as (url & st3 & ev3 & ->). done. }
  intros [= -> -> <- <-].
  apply convert_args_scope_shape in Hscope.
  unfold BaseView.is_auth_required in Hauth.
  unfold BaseView.is_sudo_required in Hsudo.
  split; [intros Hr; rewrite Hr in Hauth; by destruct (User.is_authenticated _)|].
  split; [intros Hr; rewrite Hr in Hsudo; by destruct (is_sudo _)|].
  destruct cls; cbn in Hallowed, Haccess, Hscope.
  - by injection Haccess as <- _ _.
  - unfold OrganizationView.has_permission in Hallowed.
    destruct (organization scope); [|done].
    repeat split; try done.
    intros Hr. rewrite Hr in Hallowed. by destruct (is_sso_valid access).
  - unfold TeamView.has_permission, OrganizationView.has_permission in Hallowed.
    destruct (organization scope); [|done].
    repeat split; try done.
    + intros Hr. rewrite Hr in Hallowed. by destruct (is_sso_valid access).
    + intros _. destruct (valid_sso_required self), (is_sso_valid access);
        cbn in Hallowed; try done; by apply bool_decide_eq_true in Hallowed.
  - unfold ProjectView.has_permission, TeamView.has_permission,
      OrganizationView.has_permission in Hallowed.
    destruct Hscope as [Hteam _].
    destruct (organization scope); [|done].
    repeat split; try done.
    + intros Hr. rewrite Hr in Hallowed. by destruct (is_sso_valid access).
    + destruct (valid_sso_required self), (is_sso_valid access);
        cbn in Hallowed; try done;
        destruct (team scope); cbn in Hallowed; try done;
        by apply bool_decide_eq_true in Hallowed.
Qed.

Lemma handler_reached_only_when_permitted_witness :
  let db := Examples.store (λ _, Some Examples.acme) [Examples.acme] in
  dispatch db IsOrganizationView Examples.organization_endpoint
      Examples.as_root Examples.acme_url Examples.no_session
  = Some (handled (mkScope (Some Examples.acme) None None)
                  (Access.access (Access.mk (Some 0) true true [])),
          Examples.remembered,
          [QOrganizationCache "acme"; SessionSet "activeorg" "acme"])
  ∧ is_sso_valid (Access.access (Access.mk (Some 0) true true [])) = true.
Proof.
  intros db.
  assert (dispatch db IsOrganizationView Examples.organization_endpoint
            Examples.as_root Examples.acme_url Examples.no_session
          = Some (handled (mkScope (Some Examples.acme) None None)
                          (Access.access (Access.mk (Some 0) true true [])),
                  Examples.remembered,
                  [QOrganizationCache "acme"; SessionSet "activeorg" "acme"]))
    as Hrun by reflexivity.
  split; [exact Hrun|].
  destruct (handler_reached_only_when_permitted _ _ _ _ _ _ _ _ _ _ Hrun)
    as (_ & _ & _ & Hsso & _).
  by apply Hsso.
Defined.

(** X12: the handler of a denied permission check reads the slug of the
    organization only when there is one: on every input it answers with a
    redirect, either the no-permission URL, with the request left as it
    was, or the SSO-link page of the organization given, with one error
    message added; in neither case is the session touched. *)
Theorem permission_denied_always_redirects
    self request access organization st :
  ∃ url st' ev,
    OrganizationView.handle_permission_required self request access
        organization st
    = Some (HttpResponseRedirect url, st', ev) ∧
    session st' = session st ∧
    (url = reverse "sentry" [] ∧ st' = st ∧ ev = []
     ∨ ∃ org,
         organization = Some org ∧
         url = reverse "sentry-auth-link-identity" [Organization.slug org] ∧
         messages st' = messages st ++ [(ERROR, ERR_MISSING_SSO_LINK)] ∧
         ev = [MessageAdd ERROR ERR_MISSING_SSO_LINK]).
Proof.
  unfold OrganizationView.handle_permission_required,
    OrganizationView.needs_link.
  destruct organization as [org|]; cbn.
  - destruct (_ && _); cbn.
    + eexists _, _, _. split; [reflexivity|]. cbn. split; [done|].
      right. by exists org.
    + eexists _, _, _. split; [reflexivity|]. split; [done|]. by left.
  - eexists _, _, _. split; [reflexivity|]. split; [done|]. by left.
Qed.

(** X13: a superuser passes the permission check of an organization view
    exactly when the organization resolves, whatever the view's
    [required_access] and SSO requirement and whatever memberships and
    AuthIdentity exist: the grant is the OWNER grant and building it makes
    no store query.  When the organization does not resolve, the denial is
    the no-permission redirect, with no message added. *)
Theorem superuser_permission_iff_organization_resolves
    db self request organization_slug st :
  User.is_superuser (user request) = true →
  ∃ res st' ev,
    get_active_organization db request organization_slug
        (required_access self) st
      = Some (res, st', ev) ∧
    let scope := mkScope res None None in
    let owner := Access.access (Access.mk (Some (OWNER db)) true true []) in
    OrganizationView.convert_args db self request organization_slug st
      = Some (scope, st', ev) ∧
    get_access db IsOrganizationView request scope st' = Some (owner, st', []) ∧
    has_permission IsOrganizationView self owner scope
      = bool_decide (res ≠ None) ∧
    (res = None →
     handle_permission_required IsOrganizationView self request owner scope st'
     = Some (HttpResponseRedirect (reverse "sentry" []), st', [])).
Proof.
  intros Hsuper.
  destruct (get_active_organization_footprint db request organization_slug
              (required_access self) st) as (res & st1 & ev1 & Hrun & _).
  exists res, st1, ev1. split; [exact Hrun|]. cbn.
  split; [run_view; rewrite Hrun; cbn; by rewrite app_nil_r|].
  split; [unfold OrganizationView.get_access, Access.from_user;
          by rewrite Hsuper|].
  split; [unfold OrganizationView.has_permission; cbn;
          rewrite andb_false_r; by destruct res|].
  by intros ->.
Qed.

Lemma superuser_permission_iff_organization_resolves_witness :
  has_permission IsOrganizationView Examples.organization_endpoint
      (Access.access (Access.mk (Some 0) true true []))
      (mkScope (Some Examples.acme) None None)
  = true.
Proof.
  destruct (superuser_permission_iff_organization_resolves
              Examples.sso_unlinked Examples.organization_endpoint
              Examples.as_root (Some "acme") Examples.no_session eq_refl)
    as (res & st' & ev & Hrun & _ & _ & Hallowed & _).
  injection Hrun as <- <- <-. exact Hallowed.
Defined.

(** X14: a team view resolves the team only inside the resolved
    organization: without an organization there is no team and no team
    lookup; with one, the team is what the cache holds for the slug in that
    organization, kept for a superuser without any access check and for
    another user only if the team's access check grants the view's
    [required_access].  Resolving the team does not touch the session. *)
Theorem team_scope_resolution
    db self request organization_slug team_slug st :
  ∃ res st' ev0 ev1,
    get_active_organization db request organization_slug None st
      = Some (res, st', ev0) ∧
    TeamView.convert_args db self request organization_slug team_slug st
    = Some (mkScope res
              match res with
              | Some org =>
                  match Team_get_from_cache db team_slug org with
                  | Some t =>
                      if User.is_superuser (user request)
                         || Team_has_access db t (user request)
                              (required_access self)
                      then Some t else None
                  | None => None
                  end
              | None => None
              end
              None, st', ev0 ++ ev1) ∧
    (res = None → ev1 = []) ∧
    (User.is_superuser (user request) = true →
     ∀ t u a, QTeamAccess t u a ∉ ev1) ∧
    (∀ e, e ∈ ev1 → is_session_mutation e = false).
Proof.
  destruct (get_active_organization_footprint db request organization_slug
              None st) as (res & st1 & ev0 & Hrun & _).
  destruct (team_convert_args_run db self request organization_slug team_slug
              st res st1 ev0 Hrun) as (ev1 & Hconv).
  by exists res, st1, ev0, ev1.
Qed.

(** X15: a project view resolves the project only inside the resolved
    organization: without an organization there is no project and no
    project lookup; with one, the project is what the cache holds for the
    slug in that organization, kept for a superuser without any access
    check and for another user only if the project's access check grants
    the view's [required_access].  The team is the owning team of that
    project.  Resolving the project does not touch the session. *)
Theorem project_scope_resolution
    db self request organization_slug project_slug st :
  ∃ res st' ev0 ev1,
    get_active_organization db request organization_slug None st
      = Some (res, st', ev0) ∧
    let resolved :=
      match res with
      | Some org =>
          match Project_get_from_cache db project_slug org with
          | Some p =>
              if User.is_superuser (user request)
                 || Project_has_access db p (user request)
                      (required_access self)
              then Some p else None
          | None => None
          end
      | None => None
      end in
    ProjectView.convert_args db self request organization_slug project_slug st
    = Some (mkScope res (Project.team <$> resolved) resolved, st', ev0 ++ ev1) ∧
    (res = None → ev1 = []) ∧
    (User.is_superuser (user request) = true →
     ∀ p u a, QProjectAccess p u a ∉ ev1) ∧
    (∀ e, e ∈ ev1 → is_session_mutation e = false).
Proof.
  destruct (get_active_organization_footprint db request organization_slug
              None st) as (res & st1 & ev0 & Hrun & _).
  destruct (project_convert_args_run db self request organization_slug
              project_slug st res st1 ev0 Hrun) as (ev1 & Hconv).
  by exists res, st1, ev0, ev1.
Qed.

(** * Properties of [respond] *)

(** X16: [respond] renders the view's default context overridden key by
    key by the context it is given, and leaves that merged dict behind as
    the view's default context: without a context, or with an empty one,
    nothing changes, and a key passed to one call is still rendered by the
    next call unless that call overrides it. *)
Theorem respond_merges_in_place {V} (default_context : gmap string V)
    request template context status :
  let given := default ∅ context in
  let '(response, default_context') :=
    respond default_context request template context status in
  response = render_to_response template default_context' request status ∧
  (∀ key, default_context' !! key
          = match given !! key with
            | Some v => Some v
            | None => default_context !! key
            end) ∧
  (given = ∅ → default_context' = default_context) ∧
  ∀ template2 context2 status2 key,
    rendered_context
      (respond default_context' request template2 context2 status2).1 !! key
    = match default ∅ context2 !! key with
      | Some v => Some v
      | None =>
          match given !! key with
          | Some v => Some v
          | None => default_context !! key
          end
      end.
Proof.
  assert (∀ (d : gmap string V) c key,
            match c with
            | Some c => if bool_decide (c ≠ ∅) then c ∪ d else d
            | None => d
            end !! key
            = match default ∅ c !! key with
              | Some v => Some v
              | None => d !! key
              end) as Hmerge.
  { intros d [c|] key; cbn; [|by rewrite lookup_empty].
    case_bool_decide as Hc.
    - rewrite lookup_union. by destruct (c !! key), (d !! key).
    - subst c. by rewrite lookup_empty. }
  cbn. unfold respond. cbn.
  split; [done|]. split; [apply Hmerge|]. split.
  - destruct context as [c|]; cbn; [|done].
    intros ->. by rewrite bool_decide_eq_false_2 by (by intros ?).
  - intros template2 context2 status2 key. cbn.
    by rewrite !Hmerge.
Qed.
